(** * framework/sql/database.h

    A shallow embedding of the database access layer declared in
    [src/framework/sql/database.h]: the [Database] base class with its
    overridable members, the [DBResult] cursor base, the [DBQuery] scoped
    lock, the [DBInsert] batcher and the [DBTransaction] guard.

    Member functions are state transformers over the object they act on.
    Calls made through the shared [DatabasePtr] are recorded in a call log,
    so that statements such as "rollback is invoked exactly once" can be
    expressed and proved. *)

From Stdlib Require Import String List ZArith Bool Lia.
From Stdlib.Strings Require Import Byte.
Import ListNotations.

Local Open Scope Z_scope.

(** ** Stateful calls *)

(** A member function call on an object of type [S] yielding an [A]. *)
Definition Call (S A : Type) : Type := S -> A * S.

Definition ret {S A : Type} (a : A) : Call S A := fun s => (a, s).

Definition bind {S A B : Type} (c : Call S A) (k : A -> Call S B) : Call S B :=
  fun s => let (a, s') := c s in k a s'.

Definition get {S : Type} : Call S S := fun s => (s, s).

Definition put {S : Type} (s : S) : Call S unit := fun _ => (tt, s).

Declare Scope call_scope.
Delimit Scope call_scope with call.
Notation "x <- c ;; k" := (bind c (fun x => k))
  (at level 61, c at next level, right associativity) : call_scope.
Notation "c ;; k" := (bind c (fun _ => k))
  (at level 61, right associativity) : call_scope.
Local Open Scope call_scope.

Definition result {S A : Type} (r : A * S) : A := fst r.
Definition after {S A : Type} (r : A * S) : S := snd r.

(** ** Types declared outside this header *)

(** Modelled from the spec: the enum [Fw::DatabaseEngine] is declared in a
    header that is not part of the sources at hand.  The spec gives it as
    [enum{None, ...}]; the header only names [Fw::DatabaseNone].  Any other
    engine is kept as a numbered tag. *)
Inductive DatabaseEngine : Type :=
| DatabaseNone
| DatabaseOther (tag : positive).

(** [uint16], [uint32], [uint64] and [ticks_t] values are carried as [Z]. *)
Definition uint16 : Type := Z.
Definition uint32 : Type := Z.
Definition uint64 : Type := Z.
Definition ticks_t : Type := Z.

Definition wrap32 (z : Z) : uint32 := z mod 2 ^ 32.

(** ** class DBResult *)

(** The base class carries no data members.  Its virtual members have
    constant default bodies. *)
Inductive DBResult : Type := DBResult_base.

Module DBResultDefaults.
Definition getDataInt (_ : string) : Call DBResult Z := ret 0.
Definition getDataLong (_ : string) : Call DBResult Z := ret 0.
Definition getDataString (_ : string) : Call DBResult string := ret EmptyString.
(** [getDataStream(const std::string&, uint64&)]: the size passed by
    reference is handed back as it came. *)
Definition getDataStream (_ : string) (size : uint64) : Call DBResult (string * uint64) :=
  ret (EmptyString, size).
Definition free : Call DBResult unit := ret tt.
Definition next : Call DBResult bool := ret false.
Definition getRowCount : Call DBResult Z := ret 0.
End DBResultDefaults.

(** [DBResultPtr]: a shared pointer that may be null. *)
Definition DBResultPtr : Type := option DBResult.
Definition nullptr : DBResultPtr := None.

(** ** class Database *)

(** The virtual members of [Database], as an interface over the dynamic
    type [D] of the object behind a [DatabasePtr].  [use] reads
    [g_clock.millis()]; the clock value is passed in. *)
Class DatabaseClass (D : Type) : Type := {
  use : ticks_t -> Call D unit;
  connect : string -> string -> string -> string -> uint16 -> string -> Call D unit;
  beginTransaction : Call D bool;
  rollback : Call D bool;
  commit : Call D bool;
  executeQuery : string -> Call D bool;
  storeQuery : string -> Call D DBResultPtr;
  escapeString : string -> Call D string;
  escapeBlob : list byte -> uint32 -> Call D string;
  getLastInsertedRowID : Call D uint64;
  getStringComparer : Call D string;
  getUpdateLimiter : Call D string;
  getDatabaseEngine : Call D DatabaseEngine;
  handleError : Call D bool;
  internalExecuteQuery : string -> Call D bool
}.

(** The data members of the base class. *)
Record Database : Type := mkDatabase {
  m_use : ticks_t;
  m_connected : bool
}.

Module Database.

(** [Database(): m_connected(false) {}]; [m_use] is left uninitialised,
    so the constructor takes whatever value the storage holds. *)
Definition constructor (garbage : ticks_t) : Database :=
  {| m_use := garbage; m_connected := false |}.

(** [virtual ~Database() {m_connected = false;}] *)
Definition destructor : Call Database unit :=
  fun db => (tt, {| m_use := m_use db; m_connected := false |}).

Definition use (millis : ticks_t) : Call Database unit :=
  fun db => (tt, {| m_use := millis; m_connected := m_connected db |}).

Definition connect (host user pass db : string) (port : uint16)
    (unix_socket : string) : Call Database unit :=
  ret tt.

Definition beginTransaction : Call Database bool := ret false.
Definition rollback : Call Database bool := ret false.
Definition commit : Call Database bool := ret false.

Definition executeQuery (query : string) : Call Database bool := ret false.

Definition storeQuery (query : string) : Call Database DBResultPtr :=
  ret nullptr.

Definition escapeString (_ : string) : Call Database string := ret "''"%string.

Definition escapeBlob (_ : list byte) (_ : uint32) : Call Database string :=
  ret "''"%string.

Definition getLastInsertedRowID : Call Database uint64 := ret 0.

Definition getStringComparer : Call Database string := ret "= "%string.
Definition getUpdateLimiter : Call Database string := ret " LIMIT 1;"%string.

Definition getDatabaseEngine : Call Database DatabaseEngine := ret DatabaseNone.

Definition isConnected (db : Database) : bool := m_connected db.

Definition setConnected (connected : bool) : Call Database unit :=
  fun db => (tt, {| m_use := m_use db; m_connected := connected |}).

Definition handleError : Call Database bool := ret false.
Definition internalExecuteQuery (query : string) : Call Database bool :=
  ret false.

End Database.

(** An object whose dynamic type is [Database] itself: no member is
    overridden. *)
#[export] Instance Database_base : DatabaseClass Database := {
  use := Database.use;
  connect := Database.connect;
  beginTransaction := Database.beginTransaction;
  rollback := Database.rollback;
  commit := Database.commit;
  executeQuery := Database.executeQuery;
  storeQuery := Database.storeQuery;
  escapeString := Database.escapeString;
  escapeBlob := Database.escapeBlob;
  getLastInsertedRowID := Database.getLastInsertedRowID;
  getStringComparer := Database.getStringComparer;
  getUpdateLimiter := Database.getUpdateLimiter;
  getDatabaseEngine := Database.getDatabaseEngine;
  handleError := Database.handleError;
  internalExecuteQuery := Database.internalExecuteQuery
}.

(** ** The object behind [DatabasePtr], as seen by its clients *)

(** A call made through the shared pointer. *)
Inductive DbCall : Type :=
| CallBeginTransaction
| CallRollback
| CallCommit
| CallExecuteQuery (query : string).

(** What the clients of this header share: the database object (of dynamic
    type [D]), the log of the calls made on it through [m_db], and the
    recursion depth of the static [DBQuery::databaseLock] as held by the
    running thread. *)
Record Heap (D : Type) : Type := mkHeap {
  db_object : D;
  db_calls : list DbCall;
  databaseLock : nat
}.
Arguments mkHeap {D}.
Arguments db_object {D}.
Arguments db_calls {D}.
Arguments databaseLock {D}.

(** [m_db->f(...)]: run the member on the object and record the call. *)
Definition through_ptr {D A : Type} (ev : DbCall) (c : Call D A) : Call (Heap D) A :=
  fun h =>
    let (a, d') := c (db_object h) in
    (a, {| db_object := d';
           db_calls := (db_calls h ++ [ev])%list;
           databaseLock := databaseLock h |}).

(** A client object [T] living next to the heap: members acting on [this],
    and members acting on what [this] points to. *)
Definition on_this {T H A : Type} (c : Call T A) : Call (T * H) A :=
  fun w => let (a, t') := c (fst w) in (a, (t', snd w)).

Definition on_heap {T H A : Type} (c : Call H A) : Call (T * H) A :=
  fun w => let (a, h') := c (snd w) in (a, (fst w, h')).

Definition is_rollback (ev : DbCall) : bool :=
  match ev with CallRollback => true | _ => false end.

(** How many times [rollback()] was invoked according to a call log. *)
Definition rollbacks (log : list DbCall) : nat := length (filter is_rollback log).

(** ** class DBQuery *)

Module DBQuery.

(** [DBQuery() {databaseLock.lock();}] *)
Definition constructor {D : Type} : Call (Heap D) unit :=
  fun h => (tt, {| db_object := db_object h;
                   db_calls := db_calls h;
                   databaseLock := S (databaseLock h) |}).

(** [~DBQuery() {databaseLock.unlock();}] *)
Definition destructor {D : Type} : Call (Heap D) unit :=
  fun h => (tt, {| db_object := db_object h;
                   db_calls := db_calls h;
                   databaseLock := Nat.pred (databaseLock h) |}).

(** A block that declares a [DBQuery] local and runs [body] under it. *)
Definition scoped {D A : Type} (body : Call (Heap D) A) : Call (Heap D) A :=
  constructor ;; a <- body ;; destructor ;; ret a.

End DBQuery.

(** ** class DBTransaction *)

Inductive TransactionStates_t : Type :=
| STATE_FRESH
| STATE_READY
| STATE_DONE.

Definition TransactionStates_eqb (a b : TransactionStates_t) : bool :=
  match a, b with
  | STATE_FRESH, STATE_FRESH => true
  | STATE_READY, STATE_READY => true
  | STATE_DONE, STATE_DONE => true
  | _, _ => false
  end.

(** [m_db] is the pointer to the heap's database object; the guard's own
    storage holds [m_state]. *)
Record DBTransaction : Type := mkDBTransaction {
  m_state : TransactionStates_t
}.

(** An operation a client may apply to a live guard. *)
Inductive TxOp : Type :=
| OpBegin
| OpCommit.

Module DBTransaction.
Section WithDatabase.
Context {D : Type} {driver : DatabaseClass D}.

Definition World : Type := (DBTransaction * Heap D)%type.

(** [DBTransaction(DatabasePtr database)] *)
Definition constructor : DBTransaction := {| m_state := STATE_FRESH |}.

(** [~DBTransaction()] *)
Definition destructor : Call World unit :=
  this <- on_this get ;;
  if TransactionStates_eqb (m_state this) STATE_READY
  then on_heap (through_ptr CallRollback rollback) ;; ret tt
  else ret tt.

Definition begin : Call World bool :=
  on_this (put {| m_state := STATE_READY |}) ;;
  on_heap (through_ptr CallBeginTransaction beginTransaction).

(** The [commit] delegated to in the last line is the [Database] member
    [m_db->commit()]. *)
Definition commit : Call World bool :=
  this <- on_this get ;;
  if negb (TransactionStates_eqb (m_state this) STATE_READY)
  then ret false
  else
    on_this (put {| m_state := STATE_DONE |}) ;;
    on_heap (through_ptr CallCommit commit).

Definition perform (op : TxOp) : Call World bool :=
  match op with
  | OpBegin => begin
  | OpCommit => commit
  end.

(** A client applying [ops] in order to a live guard; the return values are
    collected. *)
Fixpoint run (ops : list TxOp) : Call World (list bool) :=
  match ops with
  | [] => ret []
  | op :: rest => r <- perform op ;; rs <- run rest ;; ret (r :: rs)
  end.

(** The whole life of a guard in a scope: construction, [ops], destruction. *)
Definition lifetime (ops : list TxOp) : Call (Heap D) (list bool) :=
  fun h =>
    let (rs, w) := run ops (constructor, h) in
    let (_, w') := destructor w in
    (rs, snd w').

End WithDatabase.
End DBTransaction.

(** ** class DBInsert *)

(** [m_db] is the pointer to the heap's database object. *)
Record DBInsert : Type := mkDBInsert {
  m_rows : uint32;
  m_query : string;
  m_buf : string
}.

Module DBInsert.
Section WithBackend.
Context {D : Type} {driver : DatabaseClass D}.

(** What the backend fixes for the batcher: whether it takes multi-row
    INSERT statements, its largest statement size, and the text put
    between two rows of one statement. *)
Variable multiLine : bool.
Variable maxStatementSize : nat.
Variable separator : string.

Definition World : Type := (DBInsert * Heap D)%type.

(** [DBInsert(DatabasePtr db): m_db(db), m_rows(0) {}] *)
Definition constructor : DBInsert :=
  {| m_rows := 0; m_query := EmptyString; m_buf := EmptyString |}.

(** Modelled from the spec: the body of [DBInsert::setQuery] is missing
    (the header only declares it).  Spec: [setTemplate(query)] "sets the
    shared prefix; resets buffer and row count". *)
Definition setQuery (query : string) : Call World unit :=
  on_this (put {| m_rows := 0; m_query := query; m_buf := EmptyString |}).

(** Modelled from the spec: the body of [DBInsert::execute] is missing
    (the header only declares it).  Spec: "flushes any remaining buffered
    rows as a final statement"; with zero accumulated rows it "performs no
    statement issuance and reports success"; "row count and buffer are
    reset together atomically on flush"; every flush goes through the
    query gate. *)
Definition execute : Call World bool :=
  this <- on_this get ;;
  if m_rows this =? 0
  then ret true
  else
    let statement := (m_query this ++ m_buf this)%string in
    ok <- on_heap (DBQuery.scoped
                     (through_ptr (CallExecuteQuery statement)
                                  (executeQuery statement))) ;;
    on_this (put {| m_rows := 0; m_query := m_query this; m_buf := EmptyString |}) ;;
    ret ok.

(** Modelled from the spec: the body of [DBInsert::addRow] is missing (the
    header only declares it).  Spec: on a multi-row backend "the row is
    appended to an in-memory buffer separated appropriately; if the
    accumulated buffer would exceed a backend-defined maximum statement
    size, the batcher flushes the current buffer as one statement ...
    before starting a new one"; otherwise "each addRow immediately issues
    template + row as its own statement ... through the QueryGate, and
    never buffers".  (The overload taking a [std::stringstream] is
    declared likewise; the spec does not describe it.) *)
Definition addRow (row : string) : Call World bool :=
  this <- on_this get ;;
  if multiLine
  then
    let piece :=
      if m_rows this =? 0 then row else (separator ++ row)%string in
    let grown := (m_buf this ++ piece)%string in
    if (maxStatementSize <? String.length (m_query this ++ grown))%nat
    then
      ok <- execute ;;
      on_this (put {| m_rows := 1; m_query := m_query this; m_buf := row |}) ;;
      ret ok
    else
      on_this (put {| m_rows := wrap32 (m_rows this + 1);
                      m_query := m_query this;
                      m_buf := grown |}) ;;
      ret true
  else
    let statement := (m_query this ++ row)%string in
    on_heap (DBQuery.scoped
               (through_ptr (CallExecuteQuery statement)
                            (executeQuery statement))).

End WithBackend.
End DBInsert.

(** A heap holding a plain [Database] fresh from its constructor, with an
    empty call log and the lock free. *)
Definition base_heap : Heap Database :=
  {| db_object := Database.constructor 0; db_calls := []; databaseLock := 0 |}.

(** A driver for a database system without transactions.  The header's
    note on the transaction members asks such a driver to "return true":
    the three transaction members do so, everything else is inherited. *)
Definition NoTransactions : DatabaseClass Database := {|
  use := Database.use;
  connect := Database.connect;
  beginTransaction := ret true;
  rollback := ret true;
  commit := ret true;
  executeQuery := Database.executeQuery;
  storeQuery := Database.storeQuery;
  escapeString := Database.escapeString;
  escapeBlob := Database.escapeBlob;
  getLastInsertedRowID := Database.getLastInsertedRowID;
  getStringComparer := Database.getStringComparer;
  getUpdateLimiter := Database.getUpdateLimiter;
  getDatabaseEngine := Database.getDatabaseEngine;
  handleError := Database.handleError;
  internalExecuteQuery := Database.internalExecuteQuery
|}.

(** A driver with state of its own: the object is the journal of the
    transaction members and statements that were run on it, each of which
    succeeds.  It makes visible which member a client really ran, and on
    which state. *)
Definition Journal : DatabaseClass (list DbCall) := {|
  use := fun _ => ret tt;
  connect := fun _ _ _ _ _ _ => ret tt;
  beginTransaction := fun j => (true, (j ++ [CallBeginTransaction])%list);
  rollback := fun j => (true, (j ++ [CallRollback])%list);
  commit := fun j => (true, (j ++ [CallCommit])%list);
  executeQuery := fun query j => (true, (j ++ [CallExecuteQuery query])%list);
  storeQuery := fun _ => ret nullptr;
  escapeString := fun _ => ret "''"%string;
  escapeBlob := fun _ _ => ret "''"%string;
  getLastInsertedRowID := ret 0;
  getStringComparer := ret "= "%string;
  getUpdateLimiter := ret " LIMIT 1;"%string;
  getDatabaseEngine := ret (DatabaseOther 1);
  handleError := ret false;
  internalExecuteQuery := fun _ => ret false
|}.

(** A heap holding a [Journal] object with nothing run on it yet. *)
Definition journal_heap : Heap (list DbCall) :=
  {| db_object := []; db_calls := []; databaseLock := 0 |}.

(** ** Clients of the guard, of the base class and of the lock *)

(** What [DBTransaction::begin] and [DBTransaction::commit] do to
    [m_state], read off their bodies with the database left out. *)
Definition next_state (s : TransactionStates_t) (op : TxOp) : TransactionStates_t :=
  match op, s with
  | OpBegin, _ => STATE_READY
  | OpCommit, STATE_READY => STATE_DONE
  | OpCommit, _ => s
  end.

Definition state_after (s : TransactionStates_t) (ops : list TxOp) : TransactionStates_t :=
  fold_left next_state ops s.

(** Whether the last operation applied to a guard was [begin()]. *)
Definition ends_with_begin (ops : list TxOp) : bool :=
  match last ops OpCommit with
  | OpBegin => true
  | OpCommit => false
  end.

Definition is_begin (ev : DbCall) : bool :=
  match ev with CallBeginTransaction => true | _ => false end.

Definition is_commit (ev : DbCall) : bool :=
  match ev with CallCommit => true | _ => false end.

Definition is_transaction_call (ev : DbCall) : bool :=
  match ev with CallExecuteQuery _ => false | _ => true end.

Definition begins (log : list DbCall) : nat := length (filter is_begin log).
Definition commits (log : list DbCall) : nat := length (filter is_commit log).

(** A public member called on a [Database] object by a client, with the
    arguments of the call. *)
Inductive DatabaseOp : Type :=
| DoUse (millis : ticks_t)
| DoConnect (host user pass db : string) (port : uint16) (unix_socket : string)
| DoBeginTransaction
| DoRollback
| DoCommit
| DoExecuteQuery (query : string)
| DoStoreQuery (query : string)
| DoEscapeString (s : string)
| DoEscapeBlob (data : list byte) (len : uint32)
| DoGetLastInsertedRowID
| DoGetStringComparer
| DoGetUpdateLimiter
| DoGetDatabaseEngine
| DoSetConnected (connected : bool).

Definition is_setConnected (op : DatabaseOp) : bool :=
  match op with DoSetConnected _ => true | _ => false end.

Definition is_use (op : DatabaseOp) : bool :=
  match op with DoUse _ => true | _ => false end.

(** The call behind a [DatabaseOp] on an object of dynamic type
    [Database]; the value returned is dropped. *)
Definition Database_perform (op : DatabaseOp) : Call Database unit :=
  match op with
  | DoUse millis => use millis
  | DoConnect host user pass db port unix_socket =>
      connect host user pass db port unix_socket
  | DoBeginTransaction => beginTransaction ;; ret tt
  | DoRollback => rollback ;; ret tt
  | DoCommit => commit ;; ret tt
  | DoExecuteQuery query => executeQuery query ;; ret tt
  | DoStoreQuery query => storeQuery query ;; ret tt
  | DoEscapeString s => escapeString s ;; ret tt
  | DoEscapeBlob data len => escapeBlob data len ;; ret tt
  | DoGetLastInsertedRowID => getLastInsertedRowID ;; ret tt
  | DoGetStringComparer => getStringComparer ;; ret tt
  | DoGetUpdateLimiter => getUpdateLimiter ;; ret tt
  | DoGetDatabaseEngine => getDatabaseEngine ;; ret tt
  | DoSetConnected connected => Database.setConnected connected
  end.

Fixpoint Database_run (ops : list DatabaseOp) : Call Database unit :=
  match ops with
  | [] => ret tt
  | op :: rest => Database_perform op ;; Database_run rest
  end.

(** The heap [h] with the lock held [depth] times. *)
Definition with_lock {D : Type} (depth : nat) (h : Heap D) : Heap D :=
  {| db_object := db_object h; db_calls := db_calls h; databaseLock := depth |}.

(** [body] inside [n] nested blocks that each declare a [DBQuery] local. *)
Fixpoint nested {D A : Type} (n : nat) (body : Call (Heap D) A) : Call (Heap D) A :=
  match n with
  | O => body
  | S k => DBQuery.scoped (nested k body)
  end.

(** * Properties of the [Database] base class *)

Section BaseClass.
Variable db : Database.

(** C10: the inherited [escapeString] and [escapeBlob] yield the literal
    [''] whatever they are given; two calls with different arguments give
    the same text, so the output does not depend on the input. *)
Theorem default_escape_is_constant :
  forall (s1 s2 : string) (data1 data2 : list byte) (len1 len2 : uint32),
    escapeString s1 db = ("''"%string, db) /\
    escapeBlob data1 len1 db = ("''"%string, db) /\
    result (escapeString s1 db) = result (escapeString s2 db) /\
    result (escapeBlob data1 len1 db) = result (escapeBlob data2 len2 db).
Proof.
  intros; repeat split; reflexivity.
Qed.

(** C8, as the code has it: on an object whose members are not
    overridden, [executeQuery] returns false, [storeQuery] returns null,
    [getLastInsertedRowID] returns 0 and [getDatabaseEngine] returns
    [DatabaseNone]; these and every other virtual member except [use] hand
    the object back unchanged.  [use] writes [m_use] and nothing else. *)
Theorem default_members_inert_except_use :
  forall (query host user pass name unix_socket : string) (port : uint16)
         (data : list byte) (len : uint32) (millis : ticks_t),
    executeQuery query db = (false, db) /\
    storeQuery query db = (nullptr, db) /\
    getLastInsertedRowID db = (0, db) /\
    getDatabaseEngine db = (DatabaseNone, db) /\
    beginTransaction db = (false, db) /\
    rollback db = (false, db) /\
    commit db = (false, db) /\
    after (escapeString query db) = db /\
    after (escapeBlob data len db) = db /\
    after (getStringComparer db) = db /\
    after (getUpdateLimiter db) = db /\
    after (connect host user pass name port unix_socket db) = db /\
    after (handleError db) = db /\
    after (internalExecuteQuery query db) = db /\
    use millis db = (tt, {| m_use := millis; m_connected := m_connected db |}).
Proof.
  intros; repeat split; reflexivity.
Qed.

(** C2, as the code has it: [connect] is a [void] member whose inherited
    body is empty, so the call hands the object back as it was and the
    connected flag keeps its value (false on a new object); the flag is
    written by [setConnected], after which [isConnected] returns the value
    that was set. *)
Theorem connect_is_void_and_setConnected_marks :
  forall (host user pass name unix_socket : string) (port : uint16)
         (connected : bool),
    connect host user pass name port unix_socket db = (tt, db) /\
    Database.isConnected (after (connect host user pass name port unix_socket db))
      = Database.isConnected db /\
    Database.isConnected (after (Database.setConnected connected db)) = connected /\
    Database.isConnected (Database.constructor (m_use db)) = false.
Proof.
  intros; repeat split; reflexivity.
Qed.

End BaseClass.

(** C2, counterexample: a completed [connect] on a new object returns the
    unit value of a [void] call, not a boolean, and the object is still
    not connected afterwards. *)
Lemma connect_leaves_new_handle_disconnected :
  connect "localhost" "root" "secret" "otclient" 3306 EmptyString
          (Database.constructor 0)
    = (tt, Database.constructor 0) /\
  Database.isConnected
    (after (connect "localhost" "root" "secret" "otclient" 3306 EmptyString
                    (Database.constructor 0)))
    = false.
Proof.
  split; reflexivity.
Qed.

(** C8, counterexample: the inherited [use] is not inert.  On a new
    object whose timestamp holds 0, [use] at clock value 42 leaves the
    timestamp at 42. *)
Lemma default_use_writes_timestamp :
  m_use (Database.constructor 0) = 0 /\
  m_use (after (use 42 (Database.constructor 0))) = 42 /\
  use 42 (Database.constructor 0) = (tt, {| m_use := 42; m_connected := false |}).
Proof.
  repeat split; reflexivity.
Qed.

(** * Properties of [DBTransaction] *)

Section Guard.
Context {D : Type} {driver : DatabaseClass D}.

(** The heap after a call through [m_db]. *)
Lemma through_ptr_unfold {A : Type} (ev : DbCall) (c : Call D A) (h : Heap D) :
  through_ptr ev c h =
    (result (c (db_object h)),
     {| db_object := after (c (db_object h));
        db_calls := (db_calls h ++ [ev])%list;
        databaseLock := databaseLock h |}).
Proof.
  unfold through_ptr, result, after.
  destruct (c (db_object h)) as [a d']; reflexivity.
Qed.

Lemma begin_unfold (t : DBTransaction) (h : Heap D) :
  DBTransaction.begin (t, h) =
    (result (beginTransaction (db_object h)),
     ({| m_state := STATE_READY |},
      {| db_object := after (beginTransaction (db_object h));
         db_calls := (db_calls h ++ [CallBeginTransaction])%list;
         databaseLock := databaseLock h |})).
Proof.
  unfold DBTransaction.begin, bind, on_this, on_heap, put; cbn.
  rewrite through_ptr_unfold; reflexivity.
Qed.

Lemma commit_active_unfold (t : DBTransaction) (h : Heap D) :
  m_state t = STATE_READY ->
  DBTransaction.commit (t, h) =
    (result (commit (db_object h)),
     ({| m_state := STATE_DONE |},
      {| db_object := after (commit (db_object h));
         db_calls := (db_calls h ++ [CallCommit])%list;
         databaseLock := databaseLock h |})).
Proof.
  intros Hready.
  unfold DBTransaction.commit, bind, on_this, on_heap, get, put; cbn.
  rewrite Hready; cbn.
  rewrite through_ptr_unfold; reflexivity.
Qed.

Lemma commit_inactive_unfold (t : DBTransaction) (h : Heap D) :
  m_state t <> STATE_READY ->
  DBTransaction.commit (t, h) = (false, (t, h)).
Proof.
  intros Hnot.
  unfold DBTransaction.commit, bind, on_this, get; cbn.
  destruct (m_state t); [reflexivity | congruence | reflexivity].
Qed.

Lemma destructor_active_unfold (t : DBTransaction) (h : Heap D) :
  m_state t = STATE_READY ->
  DBTransaction.destructor (t, h) =
    (tt, (t, {| db_object := after (rollback (db_object h));
                db_calls := (db_calls h ++ [CallRollback])%list;
                databaseLock := databaseLock h |})).
Proof.
  intros Hready.
  unfold DBTransaction.destructor, bind, on_this, on_heap, get; cbn.
  rewrite Hready; cbn.
  rewrite through_ptr_unfold; reflexivity.
Qed.

Lemma destructor_inactive_unfold (t : DBTransaction) (h : Heap D) :
  m_state t <> STATE_READY ->
  DBTransaction.destructor (t, h) = (tt, (t, h)).
Proof.
  intros Hnot.
  unfold DBTransaction.destructor, bind, on_this, get; cbn.
  destruct (m_state t); [reflexivity | congruence | reflexivity].
Qed.

Lemma run_cons (op : TxOp) (ops : list TxOp) (w : DBTransaction * Heap D) :
  after (DBTransaction.run (op :: ops) w) =
    after (DBTransaction.run ops (after (DBTransaction.perform op w))).
Proof.
  cbn [DBTransaction.run]; unfold bind, after.
  destruct (DBTransaction.perform op w) as [r w1]; cbn.
  destruct (DBTransaction.run ops w1) as [rs w2]; reflexivity.
Qed.

Lemma rollbacks_app (l1 l2 : list DbCall) :
  rollbacks (l1 ++ l2) = (rollbacks l1 + rollbacks l2)%nat.
Proof.
  unfold rollbacks; rewrite filter_app, length_app; reflexivity.
Qed.

(** ** The guard never goes back to [STATE_FRESH] *)

Lemma perform_not_fresh (op : TxOp) (w : DBTransaction * Heap D) :
  m_state (fst w) <> STATE_FRESH ->
  m_state (fst (after (DBTransaction.perform op w))) <> STATE_FRESH.
Proof.
  destruct w as [t h]; cbn [fst]; intros Hnf.
  destruct op; cbn [DBTransaction.perform].
  - rewrite begin_unfold; cbn; discriminate.
  - destruct (m_state t) eqn:Hst.
    + congruence.
    + rewrite commit_active_unfold by assumption; cbn; discriminate.
    + rewrite commit_inactive_unfold by congruence; cbn; congruence.
Qed.

Lemma run_not_fresh (ops : list TxOp) :
  forall w : DBTransaction * Heap D,
    m_state (fst w) <> STATE_FRESH ->
    m_state (fst (after (DBTransaction.run ops w))) <> STATE_FRESH.
Proof.
  induction ops as [| op ops IH]; intros w Hnf.
  - exact Hnf.
  - rewrite run_cons. apply IH, perform_not_fresh, Hnf.
Qed.

(** ** Runs made of [begin] only *)

Lemma begin_effect (w : DBTransaction * Heap D) :
  m_state (fst (after (DBTransaction.begin w))) = STATE_READY /\
  db_calls (snd (after (DBTransaction.begin w)))
    = (db_calls (snd w) ++ [CallBeginTransaction])%list.
Proof.
  destruct w as [t h]; rewrite begin_unfold; split; reflexivity.
Qed.

Lemma no_commit_head (op : TxOp) (ops : list TxOp) :
  ~ In OpCommit (op :: ops) -> op = OpBegin /\ ~ In OpCommit ops.
Proof.
  intros Hnc; split.
  - destruct op; [reflexivity | exfalso; apply Hnc; left; reflexivity].
  - intros Hin; apply Hnc; right; exact Hin.
Qed.

Lemma run_without_commit_calls (ops : list TxOp) :
  forall w : DBTransaction * Heap D,
    ~ In OpCommit ops ->
    db_calls (snd (after (DBTransaction.run ops w)))
      = (db_calls (snd w) ++ repeat CallBeginTransaction (length ops))%list.
Proof.
  induction ops as [| op ops IH]; intros w Hnc.
  - cbn; rewrite app_nil_r; reflexivity.
  - apply no_commit_head in Hnc as [-> Hnc].
    rewrite run_cons, IH by exact Hnc.
    cbn [DBTransaction.perform length repeat].
    destruct (begin_effect w) as [_ ->].
    rewrite <- app_assoc; reflexivity.
Qed.

Lemma run_without_commit_keeps_ready (ops : list TxOp) :
  forall w : DBTransaction * Heap D,
    ~ In OpCommit ops ->
    m_state (fst w) = STATE_READY ->
    m_state (fst (after (DBTransaction.run ops w))) = STATE_READY.
Proof.
  induction ops as [| op ops IH]; intros w Hnc Hready.
  - exact Hready.
  - apply no_commit_head in Hnc as [-> Hnc].
    rewrite run_cons; apply IH; [exact Hnc |].
    apply begin_effect.
Qed.

Lemma run_begun_is_ready (ops : list TxOp) (w : DBTransaction * Heap D) :
  In OpBegin ops ->
  ~ In OpCommit ops ->
  m_state (fst (after (DBTransaction.run ops w))) = STATE_READY.
Proof.
  destruct ops as [| op ops]; intros Hin Hnc; [contradiction |].
  apply no_commit_head in Hnc as [-> Hnc].
  rewrite run_cons.
  apply run_without_commit_keeps_ready; [exact Hnc | apply begin_effect].
Qed.

Lemma rollbacks_begins (n : nat) : rollbacks (repeat CallBeginTransaction n) = 0%nat.
Proof.
  induction n as [| n IH]; [reflexivity | exact IH].
Qed.

Lemma lifetime_unfold (ops : list TxOp) (h : Heap D) :
  after (DBTransaction.lifetime ops h) =
    snd (after (DBTransaction.destructor
                  (after (DBTransaction.run ops (DBTransaction.constructor, h))))).
Proof.
  unfold DBTransaction.lifetime, after.
  destruct (DBTransaction.run ops (DBTransaction.constructor, h)) as [rs w].
  cbn [snd].
  destruct (DBTransaction.destructor w) as [u w']; reflexivity.
Qed.

(** ** The guard's contract *)

(** C5: [begin()] leaves the guard in [STATE_READY] whatever state it was
    in and whatever [beginTransaction()] answers; its return value is the
    delegate's, and the delegate is called exactly once on the database. *)
Theorem begin_always_activates :
  forall (t : DBTransaction) (h : Heap D),
    m_state (fst (after (DBTransaction.begin (t, h)))) = STATE_READY /\
    result (DBTransaction.begin (t, h)) = result (beginTransaction (db_object h)) /\
    db_object (snd (after (DBTransaction.begin (t, h))))
      = after (beginTransaction (db_object h)) /\
    db_calls (snd (after (DBTransaction.begin (t, h))))
      = (db_calls h ++ [CallBeginTransaction])%list.
Proof.
  intros t h; rewrite begin_unfold; repeat split.
Qed.

(** C6: [commit()] on a guard in [STATE_FRESH] or [STATE_DONE] returns
    false and leaves the guard and the heap (database object, call log,
    lock) exactly as they were: nothing is delegated. *)
Theorem commit_outside_active_is_noop :
  forall (t : DBTransaction) (h : Heap D),
    m_state t = STATE_FRESH \/ m_state t = STATE_DONE ->
    DBTransaction.commit (t, h) = (false, (t, h)).
Proof.
  intros t h [Hst | Hst]; apply commit_inactive_unfold; congruence.
Qed.

(** The database object after a run of [begin()] calls: the driver's
    [beginTransaction] applied once per call. *)
Lemma run_without_commit_object (ops : list TxOp) :
  forall w : DBTransaction * Heap D,
    ~ In OpCommit ops ->
    db_object (snd (after (DBTransaction.run ops w)))
      = Nat.iter (length ops) (fun d => after (beginTransaction d))
                 (db_object (snd w)).
Proof.
  induction ops as [| op ops IH]; intros w Hnc.
  - reflexivity.
  - apply no_commit_head in Hnc as [-> Hnc].
    rewrite run_cons, IH by exact Hnc.
    cbn [DBTransaction.perform length].
    rewrite Nat.iter_succ_r.
    destruct w as [t h]; rewrite begin_unfold; reflexivity.
Qed.

(** C4: a guard on which [begin()] was called and [commit()] never was
    invokes [rollback()] exactly once over its life, from its destructor.
    The call log grows by the [beginTransaction()] calls followed by a
    single [rollback()], and the database object it leaves is the driver's
    [rollback] applied, once, to the object as the [beginTransaction]
    calls left it. *)
Theorem abandoned_guard_rolls_back_once :
  forall (ops : list TxOp) (h : Heap D),
    In OpBegin ops ->
    ~ In OpCommit ops ->
    rollbacks (db_calls (after (DBTransaction.lifetime ops h)))
      = S (rollbacks (db_calls h)) /\
    db_calls (after (DBTransaction.lifetime ops h))
      = (db_calls h ++ repeat CallBeginTransaction (length ops)
           ++ [CallRollback])%list /\
    db_object (after (DBTransaction.lifetime ops h))
      = after (rollback
                 (Nat.iter (length ops) (fun d => after (beginTransaction d))
                           (db_object h))).
Proof.
  intros ops h Hbegin Hnc.
  assert (Hobj : db_object (after (DBTransaction.lifetime ops h))
                 = after (rollback
                            (Nat.iter (length ops)
                                      (fun d => after (beginTransaction d))
                                      (db_object h)))).
  { rewrite lifetime_unfold.
    pose proof (run_begun_is_ready ops (DBTransaction.constructor, h) Hbegin Hnc)
      as Hready.
    pose proof (run_without_commit_object ops (DBTransaction.constructor, h) Hnc)
      as Hrun.
    destruct (after (DBTransaction.run ops (DBTransaction.constructor, h)))
      as [t1 h1]; cbn [fst snd] in *.
    rewrite destructor_active_unfold by exact Hready.
    cbn [after snd db_object]; rewrite Hrun; reflexivity. }
  assert (Hlog : db_calls (after (DBTransaction.lifetime ops h))
                 = (db_calls h ++ repeat CallBeginTransaction (length ops)
                      ++ [CallRollback])%list).
  { rewrite lifetime_unfold.
    pose proof (run_begun_is_ready ops (DBTransaction.constructor, h) Hbegin Hnc)
      as Hready.
    pose proof (run_without_commit_calls ops (DBTransaction.constructor, h) Hnc)
      as Hcalls.
    destruct (after (DBTransaction.run ops (DBTransaction.constructor, h)))
      as [t1 h1]; cbn [fst snd] in *.
    rewrite destructor_active_unfold by exact Hready.
    cbn; rewrite Hcalls, <- app_assoc; reflexivity. }
  split; [| split; [exact Hlog | exact Hobj]].
  rewrite Hlog, !rollbacks_app, rollbacks_begins; cbn; lia.
Qed.

(** C1, as the code has it: [commit()] on a guard in [STATE_READY] moves
    it to [STATE_DONE] before delegating, whether the delegate then succeeds
    or fails; it returns the delegate's result, and the destructor that
    follows does nothing, so no [rollback()] is issued. *)
Theorem commit_from_active_ends_in_done :
  forall (t : DBTransaction) (h : Heap D),
    m_state t = STATE_READY ->
    result (DBTransaction.commit (t, h)) = result (commit (db_object h)) /\
    m_state (fst (after (DBTransaction.commit (t, h)))) = STATE_DONE /\
    db_calls (snd (after (DBTransaction.commit (t, h))))
      = (db_calls h ++ [CallCommit])%list /\
    DBTransaction.destructor (after (DBTransaction.commit (t, h)))
      = (tt, after (DBTransaction.commit (t, h))).
Proof.
  intros t h Hready.
  rewrite commit_active_unfold by exact Hready.
  do 3 (split; [reflexivity |]).
  apply destructor_inactive_unfold; cbn; discriminate.
Qed.

(** C3, as the code has it: on a guard in [STATE_DONE], [commit()] is a
    no-op returning false that keeps it in [STATE_DONE], and no sequence of
    operations brings it back to [STATE_FRESH]; [begin()], however, moves it
    to [STATE_READY] again. *)
Theorem done_guard_transitions :
  forall (t : DBTransaction) (h : Heap D),
    m_state t = STATE_DONE ->
    DBTransaction.commit (t, h) = (false, (t, h)) /\
    m_state (fst (after (DBTransaction.begin (t, h)))) = STATE_READY /\
    (forall ops : list TxOp,
        m_state (fst (after (DBTransaction.run ops (t, h)))) <> STATE_FRESH).
Proof.
  intros t h Hdone; repeat split.
  - apply commit_inactive_unfold; congruence.
  - apply begin_effect.
  - intros ops; apply run_not_fresh; cbn; congruence.
Qed.

End Guard.

(** ** Concrete runs *)

(** C6 at a guard fresh from its constructor, over a plain [Database]. *)
Lemma commit_outside_active_is_noop_witness :
  (m_state DBTransaction.constructor = STATE_FRESH \/
   m_state DBTransaction.constructor = STATE_DONE) /\
  DBTransaction.commit (DBTransaction.constructor, base_heap)
    = (false, (DBTransaction.constructor, base_heap)).
Proof.
  split.
  - left; reflexivity.
  - exact (commit_outside_active_is_noop DBTransaction.constructor base_heap
             (or_introl eq_refl)).
Defined.

(** C4 at a guard that calls [begin()] twice and is then dropped, over
    the [Journal] driver: the driver's own journal shows two
    [beginTransaction] and then one [rollback]. *)
Lemma abandoned_guard_rolls_back_once_witness :
  rollbacks (db_calls (after (DBTransaction.lifetime (driver := Journal)
                                [OpBegin; OpBegin] journal_heap)))
    = 1%nat /\
  db_calls (after (DBTransaction.lifetime (driver := Journal)
                     [OpBegin; OpBegin] journal_heap))
    = [CallBeginTransaction; CallBeginTransaction; CallRollback] /\
  db_object (after (DBTransaction.lifetime (driver := Journal)
                      [OpBegin; OpBegin] journal_heap))
    = [CallBeginTransaction; CallBeginTransaction; CallRollback].
Proof.
  refine (abandoned_guard_rolls_back_once (driver := Journal)
            [OpBegin; OpBegin] journal_heap _ _).
  - left; reflexivity.
  - intros [H | [H | []]]; discriminate H.
Defined.

(** C1 (as the code has it) at an active guard over a plain [Database],
    whose [commit()] fails. *)
Lemma commit_from_active_ends_in_done_witness :
  result (DBTransaction.commit ({| m_state := STATE_READY |}, base_heap)) = false /\
  m_state (fst (after (DBTransaction.commit
                         ({| m_state := STATE_READY |}, base_heap))))
    = STATE_DONE /\
  db_calls (snd (after (DBTransaction.commit
                          ({| m_state := STATE_READY |}, base_heap))))
    = [CallCommit] /\
  DBTransaction.destructor
    (after (DBTransaction.commit ({| m_state := STATE_READY |}, base_heap)))
    = (tt, after (DBTransaction.commit ({| m_state := STATE_READY |}, base_heap))).
Proof.
  exact (commit_from_active_ends_in_done
           {| m_state := STATE_READY |} base_heap eq_refl).
Defined.

(** C1, counterexample: over a plain [Database] the delegate's [commit()]
    fails, yet the guard that called [begin()] and [commit()] is in
    [STATE_DONE], not [STATE_READY], and its destruction issues no
    [rollback()]: the log of the whole life holds the two delegated calls
    only. *)
Lemma failed_commit_leaves_done_without_rollback :
  result (DBTransaction.run [OpBegin; OpCommit]
            (DBTransaction.constructor, base_heap)) = [false; false] /\
  m_state (fst (after (DBTransaction.run [OpBegin; OpCommit]
                         (DBTransaction.constructor, base_heap))))
    = STATE_DONE /\
  db_calls (after (DBTransaction.lifetime [OpBegin; OpCommit] base_heap))
    = [CallBeginTransaction; CallCommit] /\
  rollbacks (db_calls (after (DBTransaction.lifetime [OpBegin; OpCommit] base_heap)))
    = 0%nat.
Proof.
  repeat split; reflexivity.
Qed.

(** C3 (as the code has it) at a guard in [STATE_DONE] over a plain
    [Database]. *)
Lemma done_guard_transitions_witness :
  DBTransaction.commit ({| m_state := STATE_DONE |}, base_heap)
    = (false, ({| m_state := STATE_DONE |}, base_heap)) /\
  m_state (fst (after (DBTransaction.begin
                         ({| m_state := STATE_DONE |}, base_heap))))
    = STATE_READY /\
  (forall ops : list TxOp,
      m_state (fst (after (DBTransaction.run ops
                             ({| m_state := STATE_DONE |}, base_heap))))
        <> STATE_FRESH).
Proof.
  exact (done_guard_transitions {| m_state := STATE_DONE |} base_heap eq_refl).
Defined.

(** C3, counterexample: over a driver whose transaction members succeed,
    [begin()] then [commit()] both return true and leave the guard in
    [STATE_DONE]; one more [begin()] puts it in [STATE_READY].  The same
    happens over a plain [Database]. *)
Lemma begin_after_done_reactivates :
  result (DBTransaction.run (driver := NoTransactions) [OpBegin; OpCommit]
            (DBTransaction.constructor, base_heap)) = [true; true] /\
  m_state (fst (after (DBTransaction.run (driver := NoTransactions)
                         [OpBegin; OpCommit]
                         (DBTransaction.constructor, base_heap))))
    = STATE_DONE /\
  m_state (fst (after (DBTransaction.run (driver := NoTransactions)
                         [OpBegin; OpCommit; OpBegin]
                         (DBTransaction.constructor, base_heap))))
    = STATE_READY /\
  m_state (fst (after (DBTransaction.run [OpBegin; OpCommit; OpBegin]
                         (DBTransaction.constructor, base_heap))))
    = STATE_READY.
Proof.
  repeat split; reflexivity.
Qed.

(** * Properties of [DBInsert] *)

Section Batcher.
Context {D : Type} {driver : DatabaseClass D}.

(** A statement sent under a [DBQuery] local: the lock is back at its
    depth when the block ends, and exactly that statement was delegated. *)
Lemma scoped_statement (statement : string) (h : Heap D) :
  databaseLock (after (DBQuery.scoped
                         (through_ptr (CallExecuteQuery statement)
                                      (executeQuery statement)) h))
    = databaseLock h /\
  db_calls (after (DBQuery.scoped
                     (through_ptr (CallExecuteQuery statement)
                                  (executeQuery statement)) h))
    = (db_calls h ++ [CallExecuteQuery statement])%list.
Proof.
  unfold DBQuery.scoped, DBQuery.constructor, DBQuery.destructor, bind, ret.
  rewrite through_ptr_unfold; cbn; split; reflexivity.
Qed.

Lemma setQuery_resets_rows (query : string) (w : DBInsert * Heap D) :
  m_rows (fst (after (DBInsert.setQuery query w))) = 0 /\
  snd (after (DBInsert.setQuery query w)) = snd w.
Proof.
  destruct w as [b h]; split; reflexivity.
Qed.

Lemma execute_resets_rows (w : DBInsert * Heap D) :
  m_rows (fst (after (DBInsert.execute w))) = 0.
Proof.
  destruct w as [b h].
  unfold DBInsert.execute, after.
  unfold bind at 1, on_this at 1, get; cbn [fst snd].
  destruct (m_rows b =? 0) eqn:Hrows.
  - cbn; apply Z.eqb_eq, Hrows.
  - unfold bind, on_heap, on_this, put; cbn [fst snd].
    match goal with
    | |- context [DBQuery.scoped ?c h] =>
        destruct (DBQuery.scoped c h) as [ok h']
    end.
    reflexivity.
Qed.

Lemma execute_idle (b : DBInsert) (h : Heap D) :
  m_rows b = 0 -> DBInsert.execute (b, h) = (true, (b, h)).
Proof.
  intros Hrows.
  unfold DBInsert.execute, bind, on_this, get; cbn.
  rewrite Hrows; reflexivity.
Qed.

(** Right after [setQuery], and right after a flush, nothing is buffered:
    the next [execute()] does nothing. *)
Lemma execute_after_setQuery (query : string) (w : DBInsert * Heap D) :
  DBInsert.execute (after (DBInsert.setQuery query w))
    = (true, after (DBInsert.setQuery query w)).
Proof.
  destruct (after (DBInsert.setQuery query w)) as [b h] eqn:Hw.
  apply execute_idle.
  change b with (fst (b, h)); rewrite <- Hw.
  apply setQuery_resets_rows.
Qed.

Lemma execute_after_execute (w : DBInsert * Heap D) :
  DBInsert.execute (after (DBInsert.execute w))
    = (true, after (DBInsert.execute w)).
Proof.
  destruct (after (DBInsert.execute w)) as [b h] eqn:Hw.
  apply execute_idle.
  change b with (fst (b, h)); rewrite <- Hw.
  apply execute_resets_rows.
Qed.

(** On a backend without multi-row INSERT, [addRow] never buffers: the
    batcher itself is left as it was. *)
Lemma addRow_single_line_keeps_batcher
    (maxStatementSize : nat) (separator row : string) (w : DBInsert * Heap D) :
  fst (after (DBInsert.addRow false maxStatementSize separator row w)) = fst w.
Proof.
  destruct w as [b h].
  unfold DBInsert.addRow, after.
  unfold bind at 1, on_this at 1, get; cbn [fst snd].
  unfold on_heap; cbn [fst snd].
  match goal with
  | |- context [DBQuery.scoped ?c h] => destruct (DBQuery.scoped c h) as [ok h']
  end.
  reflexivity.
Qed.

(** C7: [execute()] on a batcher holding zero rows returns true and
    leaves the batcher and the heap as they were: no statement reaches the
    database, the call log and the lock are the same. *)
Theorem execute_without_rows_is_noop :
  forall (b : DBInsert) (h : Heap D),
    m_rows b = 0 ->
    DBInsert.execute (b, h) = (true, (b, h)) /\
    db_calls (snd (after (DBInsert.execute (b, h)))) = db_calls h.
Proof.
  intros b h Hrows.
  rewrite execute_idle by exact Hrows.
  split; reflexivity.
Qed.

End Batcher.

(** C7 right after [setQuery]: the following [execute()] issues nothing. *)
Lemma execute_without_rows_is_noop_witness :
  m_rows (fst (after (DBInsert.setQuery "INSERT INTO t (a) VALUES "
                        (DBInsert.constructor, base_heap)))) = 0 /\
  DBInsert.execute
    (after (DBInsert.setQuery "INSERT INTO t (a) VALUES "
              (DBInsert.constructor, base_heap)))
    = (true, (after (DBInsert.setQuery "INSERT INTO t (a) VALUES "
                       (DBInsert.constructor, base_heap)))) /\
  db_calls (snd (after (DBInsert.execute
                          (after (DBInsert.setQuery "INSERT INTO t (a) VALUES "
                                    (DBInsert.constructor, base_heap))))))
    = [].
Proof.
  split.
  - reflexivity.
  - exact (execute_without_rows_is_noop
             {| m_rows := 0; m_query := "INSERT INTO t (a) VALUES ";
                m_buf := EmptyString |} base_heap eq_refl).
Defined.

(** * Further properties of [DBTransaction] *)

Section GuardRuns.
Context {D : Type} {driver : DatabaseClass D}.

(** Case analysis on one operation of a guard [t] over a heap [h]:
    [begin()], then [commit()] in each of the three states. *)
Ltac guard_step t h :=
  match goal with
  | |- context [DBTransaction.perform ?op (t, h)] =>
      destruct op; cbn [DBTransaction.perform];
      [ rewrite begin_unfold
      | let Hst := fresh "Hst" in
        destruct (m_state t) eqn:Hst;
        [ rewrite commit_inactive_unfold by congruence
        | rewrite commit_active_unfold by assumption
        | rewrite commit_inactive_unfold by congruence ] ]
  end.

Lemma run_cons_result (op : TxOp) (ops : list TxOp) (w : DBTransaction * Heap D) :
  result (DBTransaction.run (op :: ops) w) =
    result (DBTransaction.perform op w)
      :: result (DBTransaction.run ops (after (DBTransaction.perform op w))).
Proof.
  cbn [DBTransaction.run]; unfold bind, result, after.
  destruct (DBTransaction.perform op w) as [r w1]; cbn.
  destruct (DBTransaction.run ops w1) as [rs w2]; reflexivity.
Qed.

Lemma perform_state (op : TxOp) (w : DBTransaction * Heap D) :
  m_state (fst (after (DBTransaction.perform op w)))
    = next_state (m_state (fst w)) op.
Proof.
  destruct w as [t h]; cbn [fst].
  guard_step t h; cbn; rewrite ?Hst; reflexivity.
Qed.

Lemma run_state (ops : list TxOp) :
  forall w : DBTransaction * Heap D,
    m_state (fst (after (DBTransaction.run ops w)))
      = state_after (m_state (fst w)) ops.
Proof.
  induction ops as [| op ops IH]; intros w.
  - reflexivity.
  - rewrite run_cons, IH, perform_state; reflexivity.
Qed.

Lemma perform_keeps_rollbacks (op : TxOp) (w : DBTransaction * Heap D) :
  rollbacks (db_calls (snd (after (DBTransaction.perform op w))))
    = rollbacks (db_calls (snd w)).
Proof.
  destruct w as [t h]; cbn [snd].
  guard_step t h; cbn [after snd db_calls];
    rewrite ?rollbacks_app; cbn; lia.
Qed.

Lemma run_keeps_rollbacks (ops : list TxOp) :
  forall w : DBTransaction * Heap D,
    rollbacks (db_calls (snd (after (DBTransaction.run ops w))))
      = rollbacks (db_calls (snd w)).
Proof.
  induction ops as [| op ops IH]; intros w.
  - reflexivity.
  - rewrite run_cons, IH; apply perform_keeps_rollbacks.
Qed.

(** ** The automaton behind the guard *)

Lemma next_state_commit_not_ready (s : TransactionStates_t) :
  next_state s OpCommit <> STATE_READY.
Proof.
  destruct s; discriminate.
Qed.

Lemma state_after_snoc (s : TransactionStates_t) (ops : list TxOp) (op : TxOp) :
  state_after s (ops ++ [op]) = next_state (state_after s ops) op.
Proof.
  unfold state_after; rewrite fold_left_app; reflexivity.
Qed.

Lemma ready_iff_ends_with_begin (ops : list TxOp) :
  TransactionStates_eqb (state_after STATE_FRESH ops) STATE_READY
    = ends_with_begin ops.
Proof.
  induction ops as [| op ops0 _] using rev_ind; [reflexivity |].
  rewrite state_after_snoc; unfold ends_with_begin; rewrite last_last.
  destruct op; [reflexivity |].
  pose proof (next_state_commit_not_ready (state_after STATE_FRESH ops0)) as Hnr.
  destruct (next_state (state_after STATE_FRESH ops0) OpCommit);
    [reflexivity | congruence | reflexivity].
Qed.

(** X1: the state a guard is in after any run of [begin()] and
    [commit()] calls is the one the three-state automaton gives for that
    run; what the driver answered plays no part. *)
Theorem guard_state_follows_operations :
  forall (ops : list TxOp) (t : DBTransaction) (h : Heap D),
    m_state (fst (after (DBTransaction.run ops (t, h))))
      = state_after (m_state t) ops.
Proof.
  intros ops t h; apply (run_state ops (t, h)).
Qed.

(** X2: no run of [begin()] and [commit()] calls on a live guard ever
    issues [rollback()]: the number of rollbacks in the call log is the one
    it started with. *)
Theorem live_guard_never_rolls_back :
  forall (ops : list TxOp) (t : DBTransaction) (h : Heap D),
    rollbacks (db_calls (snd (after (DBTransaction.run ops (t, h)))))
      = rollbacks (db_calls h).
Proof.
  intros ops t h; apply (run_keeps_rollbacks ops (t, h)).
Qed.

(** X3: over its whole life a guard invokes [rollback()] once when the
    last operation applied to it was [begin()], and not at all otherwise (no
    operation at all, or a last operation that was [commit()]).  In the
    first case its destructor runs the driver's [rollback] on the database
    object as the operations left it and logs that one call; in the second
    the destructor leaves the heap as the operations left it. *)
Theorem rollback_iff_last_operation_is_begin :
  forall (ops : list TxOp) (h : Heap D),
    rollbacks (db_calls (after (DBTransaction.lifetime ops h)))
      = (rollbacks (db_calls h) + (if ends_with_begin ops then 1 else 0))%nat /\
    after (DBTransaction.lifetime ops h)
      = (let h1 := snd (after (DBTransaction.run ops (DBTransaction.constructor, h))) in
         if ends_with_begin ops
         then {| db_object := after (rollback (db_object h1));
                 db_calls := (db_calls h1 ++ [CallRollback])%list;
                 databaseLock := databaseLock h1 |}
         else h1).
Proof.
  intros ops h; cbv zeta.
  pose proof (run_state ops (DBTransaction.constructor, h)) as Hstate.
  pose proof (run_keeps_rollbacks ops (DBTransaction.constructor, h)) as Hcount.
  pose proof (ready_iff_ends_with_begin ops) as Hlast.
  cbn [fst snd DBTransaction.constructor m_state] in Hstate, Hcount.
  rewrite lifetime_unfold.
  destruct (after (DBTransaction.run ops (DBTransaction.constructor, h)))
    as [t1 h1]; cbn [fst snd] in *.
  rewrite <- Hstate in Hlast.
  destruct (ends_with_begin ops).
  - rewrite destructor_active_unfold
      by (destruct (m_state t1); [discriminate | reflexivity | discriminate]).
    cbn [after snd db_calls]; split; [| reflexivity].
    rewrite rollbacks_app, Hcount; reflexivity.
  - rewrite destructor_inactive_unfold
      by (destruct (m_state t1); [discriminate | discriminate | discriminate]).
    cbn [after snd]; split; [| reflexivity].
    rewrite Hcount; lia.
Qed.

(** X5: a [commit()] that directly follows a [commit()] returns false and
    changes nothing, whatever the first one did. *)
Theorem second_commit_is_noop :
  forall (t : DBTransaction) (h : Heap D),
    DBTransaction.commit (after (DBTransaction.commit (t, h)))
      = (false, after (DBTransaction.commit (t, h))).
Proof.
  intros t h.
  destruct (m_state t) eqn:Hst.
  - rewrite (commit_inactive_unfold t h) by congruence.
    apply commit_inactive_unfold; congruence.
  - rewrite (commit_active_unfold t h) by assumption.
    apply commit_inactive_unfold; cbn; discriminate.
  - rewrite (commit_inactive_unfold t h) by congruence.
    apply commit_inactive_unfold; congruence.
Qed.

(** ** What a guard puts in the call log *)

Lemma begins_app (l1 l2 : list DbCall) :
  begins (l1 ++ l2) = (begins l1 + begins l2)%nat.
Proof.
  unfold begins; rewrite filter_app, length_app; reflexivity.
Qed.

Lemma commits_app (l1 l2 : list DbCall) :
  commits (l1 ++ l2) = (commits l1 + commits l2)%nat.
Proof.
  unfold commits; rewrite filter_app, length_app; reflexivity.
Qed.

(** Relative to a starting count [b0] of begins and [c0] of commits: the
    commits delegated since do not exceed the begins delegated since, and
    fall short of them while the guard is in [STATE_READY]. *)
Lemma perform_balance (op : TxOp) (w : DBTransaction * Heap D) (b0 c0 : nat) :
  (commits (db_calls (snd w)) + b0 <= begins (db_calls (snd w)) + c0)%nat ->
  (m_state (fst w) = STATE_READY ->
   (S (commits (db_calls (snd w)) + b0) <= begins (db_calls (snd w)) + c0)%nat) ->
  (commits (db_calls (snd (after (DBTransaction.perform op w)))) + b0
     <= begins (db_calls (snd (after (DBTransaction.perform op w)))) + c0)%nat /\
  (m_state (fst (after (DBTransaction.perform op w))) = STATE_READY ->
   (S (commits (db_calls (snd (after (DBTransaction.perform op w)))) + b0)
      <= begins (db_calls (snd (after (DBTransaction.perform op w)))) + c0)%nat).
Proof.
  destruct w as [t h]; cbn [fst snd]; intros Hle Hready.
  guard_step t h; cbn [after fst snd db_calls m_state];
    rewrite ?begins_app, ?commits_app; cbn.
  - split; [lia | intros _; lia].
  - split; [exact Hle | intros Ht; congruence].
  - specialize (Hready eq_refl); split; [lia | discriminate].
  - split; [exact Hle | intros Ht; congruence].
Qed.

Lemma run_balance (ops : list TxOp) (b0 c0 : nat) :
  forall w : DBTransaction * Heap D,
    (commits (db_calls (snd w)) + b0 <= begins (db_calls (snd w)) + c0)%nat ->
    (m_state (fst w) = STATE_READY ->
     (S (commits (db_calls (snd w)) + b0) <= begins (db_calls (snd w)) + c0)%nat) ->
    (commits (db_calls (snd (after (DBTransaction.run ops w)))) + b0
       <= begins (db_calls (snd (after (DBTransaction.run ops w)))) + c0)%nat.
Proof.
  induction ops as [| op ops IH]; intros w Hle Hready.
  - exact Hle.
  - rewrite run_cons.
    destruct (perform_balance op w b0 c0 Hle Hready) as [Hle' Hready'].
    apply IH; assumption.
Qed.

(** The calls one operation, a run, and the destructor add to the log. *)
Lemma perform_adds (op : TxOp) (w : DBTransaction * Heap D) :
  exists added : list DbCall,
    db_calls (snd (after (DBTransaction.perform op w)))
      = (db_calls (snd w) ++ added)%list /\
    forallb is_transaction_call added = true /\
    (length added <= 1)%nat /\
    databaseLock (snd (after (DBTransaction.perform op w)))
      = databaseLock (snd w).
Proof.
  destruct w as [t h]; cbn [snd].
  guard_step t h; cbn [after snd db_calls databaseLock].
  - exists [CallBeginTransaction]; repeat split; cbn; lia.
  - exists []; rewrite app_nil_r; repeat split; cbn; lia.
  - exists [CallCommit]; repeat split; cbn; lia.
  - exists []; rewrite app_nil_r; repeat split; cbn; lia.
Qed.

Lemma run_adds (ops : list TxOp) :
  forall w : DBTransaction * Heap D,
    exists added : list DbCall,
      db_calls (snd (after (DBTransaction.run ops w)))
        = (db_calls (snd w) ++ added)%list /\
      forallb is_transaction_call added = true /\
      (length added <= length ops)%nat /\
      databaseLock (snd (after (DBTransaction.run ops w)))
        = databaseLock (snd w).
Proof.
  induction ops as [| op ops IH]; intros w.
  - exists []; cbn; rewrite app_nil_r; repeat split; lia.
  - rewrite run_cons.
    destruct (perform_adds op w) as (l1 & Hlog1 & Hall1 & Hlen1 & Hlock1).
    destruct (IH (after (DBTransaction.perform op w)))
      as (l2 & Hlog2 & Hall2 & Hlen2 & Hlock2).
    exists (l1 ++ l2)%list; repeat split.
    + rewrite Hlog2, Hlog1, app_assoc; reflexivity.
    + rewrite forallb_app, Hall1, Hall2; reflexivity.
    + rewrite length_app; cbn [length]; lia.
    + rewrite Hlock2, Hlock1; reflexivity.
Qed.

Lemma destructor_adds (w : DBTransaction * Heap D) :
  exists added : list DbCall,
    db_calls (snd (after (DBTransaction.destructor w)))
      = (db_calls (snd w) ++ added)%list /\
    forallb is_transaction_call added = true /\
    (length added <= 1)%nat /\
    begins added = 0%nat /\
    commits added = 0%nat /\
    databaseLock (snd (after (DBTransaction.destructor w)))
      = databaseLock (snd w).
Proof.
  destruct w as [t h]; cbn [snd].
  destruct (m_state t) eqn:Hst.
  - rewrite destructor_inactive_unfold by congruence.
    exists []; cbn; rewrite app_nil_r; repeat split; lia.
  - rewrite destructor_active_unfold by assumption.
    exists [CallRollback]; cbn; repeat split; lia.
  - rewrite destructor_inactive_unfold by congruence.
    exists []; cbn; rewrite app_nil_r; repeat split; lia.
Qed.

(** X4: over the whole life of a guard, [commit()] is never delegated
    more often than [beginTransaction()]: counted from where the log stood
    when the guard was built, commits do not exceed begins. *)
Theorem commits_never_exceed_begins :
  forall (ops : list TxOp) (h : Heap D),
    (commits (db_calls (after (DBTransaction.lifetime ops h))) + begins (db_calls h)
       <= begins (db_calls (after (DBTransaction.lifetime ops h)))
          + commits (db_calls h))%nat.
Proof.
  intros ops h.
  rewrite lifetime_unfold.
  assert (Hrun : (commits (db_calls (snd (after (DBTransaction.run ops
                                                   (DBTransaction.constructor, h)))))
                    + begins (db_calls h)
                  <= begins (db_calls (snd (after (DBTransaction.run ops
                                                     (DBTransaction.constructor, h)))))
                     + commits (db_calls h))%nat).
  { apply run_balance; cbn [fst snd DBTransaction.constructor m_state].
    - lia.
    - discriminate. }
  destruct (destructor_adds
              (after (DBTransaction.run ops (DBTransaction.constructor, h))))
    as (l & Hlog & _ & _ & Hb & Hc & _).
  rewrite Hlog, begins_app, commits_app, Hb, Hc; lia.
Qed.

(** X6: whatever is done with a guard, the calls it adds to the log are
    transaction calls only (never a statement), at most one per operation
    plus one for the destructor; and the guard holds no [DBQuery] lock
    when an operation returns or when it is destroyed: the lock depth after
    any run of operations, and after the destruction that follows, is the
    depth at construction. *)
Theorem guard_delegates_only_transaction_calls :
  forall (ops : list TxOp) (h : Heap D),
    (exists added : list DbCall,
        db_calls (after (DBTransaction.lifetime ops h))
          = (db_calls h ++ added)%list /\
        forallb is_transaction_call added = true /\
        (length added <= S (length ops))%nat) /\
    databaseLock (snd (after (DBTransaction.run ops (DBTransaction.constructor, h))))
      = databaseLock h /\
    databaseLock (after (DBTransaction.lifetime ops h)) = databaseLock h.
Proof.
  intros ops h.
  rewrite lifetime_unfold.
  destruct (run_adds ops (DBTransaction.constructor, h))
    as (l1 & Hlog1 & Hall1 & Hlen1 & Hlock1).
  destruct (destructor_adds
              (after (DBTransaction.run ops (DBTransaction.constructor, h))))
    as (l2 & Hlog2 & Hall2 & Hlen2 & _ & _ & Hlock2).
  cbn [snd] in Hlog1, Hlock1.
  split; [| split].
  - exists (l1 ++ l2)%list; repeat split.
    + rewrite Hlog2, Hlog1, app_assoc; reflexivity.
    + rewrite forallb_app, Hall1, Hall2; reflexivity.
    + rewrite length_app; lia.
  - exact Hlock1.
  - rewrite Hlock2, Hlock1; reflexivity.
Qed.

(** ** A guard that never begins *)

Lemma run_commits_only (ops : list TxOp) :
  forall (t : DBTransaction) (h : Heap D),
    m_state t <> STATE_READY ->
    ~ In OpBegin ops ->
    DBTransaction.run ops (t, h) = (repeat false (length ops), (t, h)).
Proof.
  induction ops as [| op ops IH]; intros t h Hst Hnb.
  - reflexivity.
  - destruct op; [exfalso; apply Hnb; left; reflexivity |].
    cbn [DBTransaction.run DBTransaction.perform length repeat].
    unfold bind at 1.
    rewrite commit_inactive_unfold by exact Hst.
    unfold bind at 1.
    rewrite IH; [reflexivity | exact Hst |].
    intros Hin; apply Hnb; right; exact Hin.
Qed.

(** X7: a guard on which [begin()] is never called does nothing at
    all: each [commit()] returns false, and after its destruction the heap
    (database object, call log, lock) is exactly as before. *)
Theorem guard_without_begin_does_nothing :
  forall (ops : list TxOp) (h : Heap D),
    ~ In OpBegin ops ->
    DBTransaction.lifetime ops h = (repeat false (length ops), h).
Proof.
  intros ops h Hnb.
  unfold DBTransaction.lifetime.
  rewrite run_commits_only; [| cbn; discriminate | exact Hnb].
  rewrite destructor_inactive_unfold by (cbn; discriminate).
  reflexivity.
Qed.

End GuardRuns.

(** X7 at a guard that is only committed, twice, over a plain
    [Database]. *)
Lemma guard_without_begin_does_nothing_witness :
  DBTransaction.lifetime [OpCommit; OpCommit] base_heap
    = ([false; false], base_heap).
Proof.
  refine (guard_without_begin_does_nothing [OpCommit; OpCommit] base_heap _).
  intros [H | [H | []]]; discriminate H.
Defined.

(** ** Guards over a plain [Database] *)

Lemma base_perform (op : TxOp) (t : DBTransaction) (h : Heap Database) :
  result (DBTransaction.perform op (t, h)) = false /\
  db_object (snd (after (DBTransaction.perform op (t, h)))) = db_object h.
Proof.
  destruct op; cbn [DBTransaction.perform].
  - rewrite begin_unfold; split; reflexivity.
  - destruct (m_state t) eqn:Hst.
    + rewrite commit_inactive_unfold by congruence; split; reflexivity.
    + rewrite commit_active_unfold by assumption; split; reflexivity.
    + rewrite commit_inactive_unfold by congruence; split; reflexivity.
Qed.

Lemma base_run (ops : list TxOp) :
  forall w : DBTransaction * Heap Database,
    result (DBTransaction.run ops w) = repeat false (length ops) /\
    db_object (snd (after (DBTransaction.run ops w))) = db_object (snd w).
Proof.
  induction ops as [| op ops IH]; intros w.
  - split; reflexivity.
  - rewrite run_cons_result, run_cons.
    destruct w as [t h].
    destruct (base_perform op t h) as [Hres Hobj].
    destruct (IH (after (DBTransaction.perform op (t, h)))) as [IHres IHobj].
    split.
    + rewrite Hres, IHres; reflexivity.
    + rewrite IHobj, Hobj; reflexivity.
Qed.

Lemma lifetime_result {D : Type} {driver : DatabaseClass D}
    (ops : list TxOp) (h : Heap D) :
  result (DBTransaction.lifetime ops h)
    = result (DBTransaction.run ops (DBTransaction.constructor, h)).
Proof.
  unfold DBTransaction.lifetime, result.
  destruct (DBTransaction.run ops (DBTransaction.constructor, h)) as [rs w].
  cbn [fst].
  destruct (DBTransaction.destructor w) as [u w']; reflexivity.
Qed.

(** X8: over a [Database] whose members are not overridden, every
    [begin()] and every [commit()] of a guard returns false, whatever the
    order of the calls, and the database object is the same after the
    guard's destruction as before its construction. *)
Theorem guard_over_base_database_always_fails :
  forall (ops : list TxOp) (h : Heap Database),
    result (DBTransaction.lifetime ops h) = repeat false (length ops) /\
    db_object (after (DBTransaction.lifetime ops h)) = db_object h.
Proof.
  intros ops h.
  destruct (base_run ops (DBTransaction.constructor, h)) as [Hres Hobj].
  split.
  - rewrite lifetime_result; exact Hres.
  - rewrite lifetime_unfold.
    cbn [snd] in Hobj; rewrite <- Hobj.
    destruct (after (DBTransaction.run ops (DBTransaction.constructor, h)))
      as [t1 h1]; cbn [snd].
    destruct (m_state t1) eqn:Hst.
    + rewrite destructor_inactive_unfold by congruence; reflexivity.
    + rewrite destructor_active_unfold by assumption; reflexivity.
    + rewrite destructor_inactive_unfold by congruence; reflexivity.
Qed.

(** * Further properties of the [Database] base class *)

Lemma Database_run_cons (op : DatabaseOp) (ops : list DatabaseOp) (db : Database) :
  after (Database_run (op :: ops) db)
    = after (Database_run ops (after (Database_perform op db))).
Proof.
  cbn [Database_run]; unfold bind, after.
  destruct (Database_perform op db) as [u db1]; reflexivity.
Qed.

Lemma perform_keeps_connected (op : DatabaseOp) (db : Database) :
  is_setConnected op = false ->
  m_connected (after (Database_perform op db)) = m_connected db.
Proof.
  destruct op; intros Hop; try discriminate Hop; reflexivity.
Qed.

Lemma perform_keeps_use (op : DatabaseOp) (db : Database) :
  is_use op = false ->
  m_use (after (Database_perform op db)) = m_use db.
Proof.
  destruct op; intros Hop; try discriminate Hop; reflexivity.
Qed.

Lemma run_keeps_connected (ops : list DatabaseOp) :
  forall db : Database,
    existsb is_setConnected ops = false ->
    m_connected (after (Database_run ops db)) = m_connected db.
Proof.
  induction ops as [| op ops IH]; intros db Hops.
  - reflexivity.
  - cbn [existsb] in Hops; apply orb_false_elim in Hops as [Hop Hops].
    rewrite Database_run_cons, IH by exact Hops.
    apply perform_keeps_connected, Hop.
Qed.

Lemma run_keeps_use (ops : list DatabaseOp) :
  forall db : Database,
    existsb is_use ops = false ->
    m_use (after (Database_run ops db)) = m_use db.
Proof.
  induction ops as [| op ops IH]; intros db Hops.
  - reflexivity.
  - cbn [existsb] in Hops; apply orb_false_elim in Hops as [Hop Hops].
    rewrite Database_run_cons, IH by exact Hops.
    apply perform_keeps_use, Hop.
Qed.

(** X9: on a [Database] whose members are not overridden, only
    [setConnected] writes the connected flag.  Any run of the other members
    ([connect] included) leaves [isConnected()] as it was, and after
    [setConnected(c)] followed by such a run [isConnected()] returns [c]. *)
Theorem connected_flag_written_only_by_setConnected :
  forall (ops : list DatabaseOp) (db : Database) (c : bool),
    existsb is_setConnected ops = false ->
    Database.isConnected (after (Database_run ops db)) = Database.isConnected db /\
    Database.isConnected (after (Database_run (DoSetConnected c :: ops) db)) = c.
Proof.
  intros ops db c Hops; unfold Database.isConnected; split.
  - apply run_keeps_connected, Hops.
  - rewrite Database_run_cons, run_keeps_connected by exact Hops.
    reflexivity.
Qed.

(** X10: on a [Database] whose members are not overridden, only [use]
    writes the last-use timestamp.  Any run of the other members leaves
    [m_use] as it was, and after [use] at clock value [millis] followed by
    such a run [m_use] holds [millis]. *)
Theorem use_timestamp_written_only_by_use :
  forall (ops : list DatabaseOp) (db : Database) (millis : ticks_t),
    existsb is_use ops = false ->
    m_use (after (Database_run ops db)) = m_use db /\
    m_use (after (Database_run (DoUse millis :: ops) db)) = millis.
Proof.
  intros ops db millis Hops; split.
  - apply run_keeps_use, Hops.
  - rewrite Database_run_cons, run_keeps_use by exact Hops.
    reflexivity.
Qed.

(** X9 at an object fresh from its constructor that is connected to,
    used and queried. *)
Lemma connected_flag_written_only_by_setConnected_witness :
  Database.isConnected
    (after (Database_run
              [DoConnect "localhost" "root" "secret" "otclient" 3306 EmptyString;
               DoUse 5; DoExecuteQuery "SELECT 1"]
              (Database.constructor 0)))
    = Database.isConnected (Database.constructor 0) /\
  Database.isConnected
    (after (Database_run
              [DoSetConnected true;
               DoConnect "localhost" "root" "secret" "otclient" 3306 EmptyString;
               DoUse 5; DoExecuteQuery "SELECT 1"]
              (Database.constructor 0)))
    = true.
Proof.
  exact (connected_flag_written_only_by_setConnected
           [DoConnect "localhost" "root" "secret" "otclient" 3306 EmptyString;
            DoUse 5; DoExecuteQuery "SELECT 1"]
           (Database.constructor 0) true eq_refl).
Defined.

(** X10 at an object fresh from its constructor that is marked
    connected and asked for its engine. *)
Lemma use_timestamp_written_only_by_use_witness :
  m_use (after (Database_run [DoSetConnected true; DoGetDatabaseEngine]
                  (Database.constructor 7)))
    = m_use (Database.constructor 7) /\
  m_use (after (Database_run [DoUse 42; DoSetConnected true; DoGetDatabaseEngine]
                  (Database.constructor 7)))
    = 42.
Proof.
  exact (use_timestamp_written_only_by_use
           [DoSetConnected true; DoGetDatabaseEngine]
           (Database.constructor 7) 42 eq_refl).
Defined.

(** * Properties of [DBQuery] *)

Section QueryLock.
Context {D : Type}.

Lemma with_lock_same (h : Heap D) (depth : nat) :
  databaseLock h = depth -> with_lock depth h = h.
Proof.
  intros <-; destruct h; reflexivity.
Qed.

(** A body that gives the lock back at the depth it found it, run inside
    [n] nested [DBQuery] scopes over a heap at depth [databaseLock h]: it
    runs at depth [n + databaseLock h], and the heap it leaves is handed
    back at depth [databaseLock h]. *)
Lemma nested_unfold {A : Type} (body : Call (Heap D) A) :
  (forall h' : Heap D, databaseLock (after (body h')) = databaseLock h') ->
  forall (n : nat) (h : Heap D),
    nested n body h =
      (result (body (with_lock (n + databaseLock h) h)),
       with_lock (databaseLock h)
                 (after (body (with_lock (n + databaseLock h) h)))).
Proof.
  intros Hbody n; induction n as [| k IH]; intros h.
  - cbn [nested Nat.add].
    rewrite (with_lock_same h) by reflexivity.
    rewrite with_lock_same by apply Hbody.
    unfold result, after; destruct (body h); reflexivity.
  - cbn [nested]; unfold DBQuery.scoped.
    unfold bind at 1; unfold DBQuery.constructor at 1.
    unfold bind at 1; rewrite IH; cbn [databaseLock].
    unfold bind, DBQuery.destructor, ret, with_lock;
      cbn [db_object db_calls databaseLock Nat.pred].
    rewrite Nat.add_succ_r; reflexivity.
Qed.

(** X11: [DBQuery] scopes nest.  A body that gives the lock back at the
    depth it found it, run inside [n] nested scopes, runs with the lock
    held [n] times more than outside; when the outermost scope ends the
    lock is back at its former depth, and the body's result and its effect
    on the database and the call log are handed on unchanged. *)
Theorem nested_scopes_release_lock :
  forall (A : Type) (body : Call (Heap D) A) (n : nat) (h : Heap D),
    (forall h' : Heap D, databaseLock (after (body h')) = databaseLock h') ->
    databaseLock (after (nested n body h)) = databaseLock h /\
    result (nested n body h)
      = result (body (with_lock (n + databaseLock h) h)) /\
    db_object (after (nested n body h))
      = db_object (after (body (with_lock (n + databaseLock h) h))) /\
    db_calls (after (nested n body h))
      = db_calls (after (body (with_lock (n + databaseLock h) h))).
Proof.
  intros A body n h Hbody.
  rewrite (nested_unfold body Hbody n h).
  repeat split.
Qed.

End QueryLock.

(** X11 at a statement sent to a plain [Database] from inside two nested
    scopes. *)
Lemma nested_scopes_release_lock_witness :
  databaseLock (after (nested 2 (through_ptr (CallExecuteQuery "SELECT 1")
                                             (executeQuery "SELECT 1"))
                         base_heap))
    = 0%nat /\
  result (nested 2 (through_ptr (CallExecuteQuery "SELECT 1")
                                (executeQuery "SELECT 1"))
            base_heap)
    = false /\
  db_object (after (nested 2 (through_ptr (CallExecuteQuery "SELECT 1")
                                          (executeQuery "SELECT 1"))
                      base_heap))
    = Database.constructor 0 /\
  db_calls (after (nested 2 (through_ptr (CallExecuteQuery "SELECT 1")
                                         (executeQuery "SELECT 1"))
                     base_heap))
    = [CallExecuteQuery "SELECT 1"].
Proof.
  refine (nested_scopes_release_lock bool
            (through_ptr (CallExecuteQuery "SELECT 1") (executeQuery "SELECT 1"))
            2 base_heap _).
  intros h'; rewrite through_ptr_unfold; reflexivity.
Defined.

(** * The guard used as intended *)

Section HappyPath.
Context {D : Type} {driver : DatabaseClass D}.

(** X12: a guard that is begun, committed and dropped delegates
    [beginTransaction()] and then [commit()], each once and in that order,
    the second on the database as the first left it; the two return values
    are the delegates', and no [rollback()] follows. *)
Theorem begin_commit_delegates_in_order :
  forall h : Heap D,
    result (DBTransaction.lifetime [OpBegin; OpCommit] h)
      = [result (beginTransaction (db_object h));
         result (commit (after (beginTransaction (db_object h))))] /\
    db_calls (after (DBTransaction.lifetime [OpBegin; OpCommit] h))
      = (db_calls h ++ [CallBeginTransaction; CallCommit])%list /\
    db_object (after (DBTransaction.lifetime [OpBegin; OpCommit] h))
      = after (commit (after (beginTransaction (db_object h)))).
Proof.
  intros h.
  unfold DBTransaction.lifetime.
  cbn [DBTransaction.run DBTransaction.perform]; unfold bind.
  rewrite begin_unfold; cbv beta iota.
  rewrite commit_active_unfold by reflexivity; cbv beta iota.
  unfold ret; cbv beta iota.
  rewrite destructor_inactive_unfold by (cbn; discriminate).
  cbn [result after fst snd db_calls db_object].
  rewrite <- app_assoc; repeat split.
Qed.

End HappyPath.
